(** * atomic-langfuse: the recursive accumulator of [scripts/py-scripts/main.py]

    The script defines one function, [add_num], decorated with langfuse's
    [@observe], calls it once as [add_num(2, 1)] and flushes the telemetry
    client.  Python integers are unbounded, so they are modelled by [Z].
    Recursion is modelled by a depth budget: [add_num depth start add] is
    [None] when more than [depth] nested activations of [add_num] would be
    needed (CPython raises [RecursionError] at that point) and [Some s] when
    the call returns the string [s]. *)

From Stdlib Require Import ZArith String List Sorted Lia Bool.
From Stdlib Require Import DecimalString DecimalZ.
Import ListNotations.

Local Open Scope string_scope.
Local Open Scope list_scope.
Local Open Scope Z_scope.

(** ** Integers as text *)

(** [str(n)] for a Python [int]: decimal digits, a leading [-] for negative
    numbers, ["0"] for zero.  This is what an f-string replacement field
    [{n}] produces for an integer. *)
Definition str_int (n : Z) : string :=
  NilZero.string_of_int (Z.to_int n).

(** The f-string [f"The sum is {total}"]. *)
Definition fstring_sum (total : Z) : string :=
  String.append "The sum is " (str_int total).

(** ** The source function *)

(** [sys.setrecursionlimit(10000)], line 5, taken as the number of nested
    activations of [add_num] the script allows.  CPython counts every frame,
    the decorator's wrapper included, so the real allowance is a fraction of
    this; the entry call needs 3999 activations (see [entry_call_depth]). *)
Definition recursionlimit : nat := Z.to_nat 10000.

(** [add_num], lines 9-21:
<<
    if (start) >= 4000:
        return f"The sum is {start + add}"
    return add_num(start + add, add)
>>
    [depth] bounds the number of nested activations. *)
Fixpoint add_num (depth : nat) (start add : Z) : option string :=
  match depth with
  | O => None
  | S depth' =>
      if start >=? 4000
      then Some (fstring_sum (start + add))
      else add_num depth' (start + add) add
  end.

(** The call [add_num(start, add)] returns [s]: some budget is enough, and
    every larger budget gives the same string. *)
Definition returns (start add : Z) (s : string) : Prop :=
  exists depth, forall depth', (depth <= depth')%nat ->
    add_num depth' start add = Some s.

(** The call never returns, whatever the budget. *)
Definition diverges (start add : Z) : Prop :=
  forall depth, add_num depth start add = None.

(** ** What the spec calls the threshold-meeting value *)

(** [T] is the first value [>= 4000] of the sequence
    [start, start+add, start+2*add, ...]: it sits at some index [k >= 0]
    and every earlier member is below 4000. *)
Definition first_reaching (start add T : Z) : Prop :=
  exists k, 0 <= k /\ T = start + k * add /\ 4000 <= T /\
    forall j, 0 <= j < k -> start + j * add < 4000.

(** [T] is the smallest value of the form [start + k*add], [k >= 0], that
    is [>= 4000]. *)
Definition smallest_reaching (start add T : Z) : Prop :=
  (exists k, 0 <= k /\ T = start + k * add) /\ 4000 <= T /\
  forall k, 0 <= k -> 4000 <= start + k * add -> T <= start + k * add.

(** The value at which the recursion stops, in closed form: [start] itself
    when it is already [>= 4000], otherwise the least number [>= 4000] in
    the residue class of [start] modulo [add]. *)
Definition landing (start add : Z) : Z :=
  if start >=? 4000 then start else 4000 + (start - 4000) mod add.

(** ** The two-state machine of the recursion *)

(** An activation holding [start] is [Accumulating]; [Done] carries the
    returned string and has no successor. *)
Inductive phase : Type :=
| Accumulating (start : Z)
| Done (result : string).

(** One activation of [add_num]: line 21 when [start < 4000], lines 19-20
    otherwise. *)
Inductive step (add : Z) : phase -> phase -> Prop :=
| step_recurse start :
    start < 4000 ->
    step add (Accumulating start) (Accumulating (start + add))
| step_return start :
    4000 <= start ->
    step add (Accumulating start) (Done (fstring_sum (start + add))).

Inductive steps (add : Z) : phase -> phase -> Prop :=
| steps_refl p : steps add p p
| steps_cons p q r : step add p q -> steps add q r -> steps add p r.

(** ** The decorated function and the script *)

(** What the script makes observable.  [@observe] captures the inputs of a
    call when it starts and its output when it ends ([None] when the body
    raised); the client is fetched and flushed at the end of the script. *)
Inductive event : Type :=
| SpanStart (start add : Z)
| SpanEnd (output : option string)
| GetClient
| Flush.

Record world : Type := World {
  telemetry : list event;   (* in the order the events happened *)
  stdout : list string
}.

Definition boot : world := World [] [].

Definition emit (w : world) (e : event) : world :=
  World (telemetry w ++ [e]) (stdout w).

(** The name [add_num] is bound to the decorated function, so the recursive
    call of line 21 goes through the decorator as well: every activation is
    one span. *)
Fixpoint add_num_observed (depth : nat) (w : world) (start add : Z)
  : world * option string :=
  match depth with
  | O => (w, None)
  | S depth' =>
      let w1 := emit w (SpanStart start add) in
      if start >=? 4000
      then
        let s := fstring_sum (start + add) in
        (emit w1 (SpanEnd (Some s)), Some s)
      else
        let (w2, r) := add_num_observed depth' w1 (start + add) add in
        (emit w2 (SpanEnd r), r)
  end.

(** The events one call appends, by themselves. *)
Fixpoint span_events (depth : nat) (start add : Z) : list event :=
  match depth with
  | O => []
  | S depth' =>
      SpanStart start add ::
      (if start >=? 4000
       then [SpanEnd (Some (fstring_sum (start + add)))]
       else span_events depth' (start + add) add
              ++ [SpanEnd (add_num depth' (start + add) add)])
  end.

(** The [start] arguments of the successive activations, read off a trace. *)
Fixpoint span_starts (tr : list event) : list Z :=
  match tr with
  | [] => []
  | SpanStart start _ :: tr' => start :: span_starts tr'
  | _ :: tr' => span_starts tr'
  end.

Definition call_starts (depth : nat) (start add : Z) : list Z :=
  span_starts (telemetry (fst (add_num_observed depth boot start add))).

(** The same sequence, computed without the trace. *)
Fixpoint start_chain (depth : nat) (start add : Z) : list Z :=
  match depth with
  | O => []
  | S depth' =>
      start :: (if start >=? 4000 then [] else start_chain depth' (start + add) add)
  end.

(** The calls made at nesting level 0, that is, by the script itself and
    not by another activation. *)
Fixpoint top_level_calls (nesting : nat) (tr : list event) : list (Z * Z) :=
  match tr with
  | [] => []
  | SpanStart start add :: tr' =>
      match nesting with O => [(start, add)] | S _ => [] end
        ++ top_level_calls (S nesting) tr'
  | SpanEnd _ :: tr' => top_level_calls (Nat.pred nesting) tr'
  | _ :: tr' => top_level_calls nesting tr'
  end.

(** The module body, lines 24-28:
<<
    add_num(2, 1)
    langfuse = get_client()
    langfuse.flush()
>>
    The value of the expression statement is dropped.  The script ends with
    exit status 0 when it runs to its end, and with status 1 when the call
    raises, in which case the last two lines are not reached. *)
Definition main (budget : nat) (w : world) : world * Z :=
  match add_num_observed budget w 2 1 with
  | (w1, Some _) => (emit (emit w1 GetClient) Flush, 0)
  | (w1, None) => (w1, 1)
  end.

(** ** The iterative formulation *)

(** A [while] loop over a state; [fuel] bounds the number of times the
    condition is evaluated. *)
Fixpoint while {St : Type} (cond : St -> bool) (body : St -> St)
    (fuel : nat) (st : St) : option St :=
  match fuel with
  | O => None
  | S fuel' =>
      if cond st then while cond body fuel' (body st) else Some st
  end.

(** The loop, as the spec words it:
<<
    total := start
    while total < 4000 do total := total + add
    return "The sum is {total + add}"
>>
*)
Definition add_num_iterative (fuel : nat) (start add : Z) : option string :=
  match while (fun total => total <? 4000) (fun total => total + add)
              fuel start with
  | Some total => Some (fstring_sum (total + add))
  | None => None
  end.

Definition returns_iterative (start add : Z) (s : string) : Prop :=
  exists fuel, forall fuel', (fuel <= fuel')%nat ->
    add_num_iterative fuel' start add = Some s.

(** ** The depth of a returning call *)

(** The number of nested activations a returning call makes: one when
    [start] is already [>= 4000]; otherwise one for every member of
    [start, start+add, ...] below 4000, that is [ceil((4000 - start) / add)]
    of them for [add > 0], and the terminal one. *)
Definition calls_needed (start add : Z) : Z :=
  if start >=? 4000 then 1 else (4000 - start + add - 1) / add + 1.

(** The spans of a call that made [n] activations and returned [s]: the
    [n] span starts in call order, then the [n] span ends, innermost
    first, each carrying [s]. *)
Definition nested_spans (n : nat) (start add : Z) (s : string) : list event :=
  map (fun i => SpanStart (start + Z.of_nat i * add) add) (seq 0 n)
    ++ repeat (SpanEnd (Some s)) n.

(** ** Integers as text: the number can be read back *)

Lemma to_int_not_nil n :
  Z.to_int n <> Decimal.Pos Decimal.Nil /\ Z.to_int n <> Decimal.Neg Decimal.Nil.
Proof.
  destruct n as [| p | p]; cbn; split; try discriminate;
    intros [= Hnil]; exact (DecimalPos.Unsigned.to_uint_nonnil p Hnil).
Qed.

Lemma str_int_inj n m : str_int n = str_int m -> n = m.
Proof.
  unfold str_int. intros Heq.
  destruct (to_int_not_nil n) as [Hn Hn'], (to_int_not_nil m) as [Hm Hm'].
  apply DecimalZ.to_int_inj.
  pose proof (NilZero.isi _ Hn Hn') as Rn.
  pose proof (NilZero.isi _ Hm Hm') as Rm.
  congruence.
Qed.

Lemma fstring_sum_inj n m : fstring_sum n = fstring_sum m -> n = m.
Proof.
  unfold fstring_sum. cbn. intros [= Heq]. apply str_int_inj, Heq.
Qed.

(** ** Basic facts about the recursion *)

Lemma add_num_terminal depth start add :
  4000 <= start ->
  add_num (S depth) start add = Some (fstring_sum (start + add)).
Proof.
  intros Hge. simpl.
  destruct (Z.geb_spec start 4000) as [_ | Hlt]; [reflexivity | lia].
Qed.

Lemma add_num_recursive depth start add :
  start < 4000 ->
  add_num (S depth) start add = add_num depth (start + add) add.
Proof.
  intros Hlt. simpl.
  destruct (Z.geb_spec start 4000) as [Hge | _]; [lia | reflexivity].
Qed.

(** A larger budget never changes a result already obtained. *)
Lemma add_num_mono depth depth' start add s :
  (depth <= depth')%nat ->
  add_num depth start add = Some s ->
  add_num depth' start add = Some s.
Proof.
  revert depth' start.
  induction depth as [| d IH]; intros depth' start Hle Hrun.
  - discriminate Hrun.
  - destruct depth' as [| d']; [lia |].
    destruct (Z_lt_ge_dec start 4000) as [Hlt | Hge].
    + rewrite add_num_recursive in * by assumption.
      apply IH; [lia | exact Hrun].
    + rewrite add_num_terminal in * by lia. exact Hrun.
Qed.

Lemma returns_of_run depth start add s :
  add_num depth start add = Some s -> returns start add s.
Proof.
  intros Hrun. exists depth. intros depth' Hle.
  eapply add_num_mono; eassumption.
Qed.

Lemma add_num_functional d1 d2 start add s1 s2 :
  add_num d1 start add = Some s1 ->
  add_num d2 start add = Some s2 ->
  s1 = s2.
Proof.
  intros H1 H2.
  apply (add_num_mono d1 (Nat.max d1 d2)) in H1; [| lia].
  apply (add_num_mono d2 (Nat.max d1 d2)) in H2; [| lia].
  congruence.
Qed.

Lemma returns_functional start add s1 s2 :
  returns start add s1 -> returns start add s2 -> s1 = s2.
Proof.
  intros [d1 H1] [d2 H2].
  specialize (H1 d1 (Nat.le_refl _)). specialize (H2 d2 (Nat.le_refl _)).
  eapply add_num_functional; eassumption.
Qed.

(** ** The landing value *)

Lemma landing_terminal start add : 4000 <= start -> landing start add = start.
Proof.
  intros Hge. unfold landing.
  destruct (Z.geb_spec start 4000); [reflexivity | lia].
Qed.

Lemma landing_below start add :
  start < 4000 -> landing start add = 4000 + (start - 4000) mod add.
Proof.
  intros Hlt. unfold landing.
  destruct (Z.geb_spec start 4000); [lia | reflexivity].
Qed.

(** Below the threshold the landing value depends on [start] only through
    its residue modulo [add]. *)
Lemma landing_residue add s1 s2 :
  s1 < 4000 -> s2 < 4000 ->
  s1 mod add = s2 mod add ->
  landing s1 add = landing s2 add.
Proof.
  intros H1 H2 Hmod. rewrite !landing_below by assumption.
  rewrite (Zminus_mod s1), (Zminus_mod s2), Hmod. reflexivity.
Qed.

(** ** First and smallest threshold-meeting values *)

Lemma first_reaching_unique start add T T' :
  first_reaching start add T -> first_reaching start add T' -> T = T'.
Proof.
  intros (k & Hk & -> & Hge & Hbelow) (k' & Hk' & -> & Hge' & Hbelow').
  destruct (Z.lt_trichotomy k k') as [Hlt | [-> | Hgt]].
  - specialize (Hbelow' k). lia.
  - reflexivity.
  - specialize (Hbelow k'). lia.
Qed.

(** Whatever the increment, a run that returns has stopped at the first
    member of the sequence that is [>= 4000] and reports it plus [add]. *)
Lemma add_num_first_reaching depth :
  forall start add s,
  add_num depth start add = Some s ->
  exists T, first_reaching start add T /\ s = fstring_sum (T + add).
Proof.
  induction depth as [| d IH]; intros start add s Hrun.
  - discriminate Hrun.
  - destruct (Z_lt_ge_dec start 4000) as [Hlt | Hge].
    + rewrite add_num_recursive in Hrun by assumption.
      destruct (IH _ _ _ Hrun) as (T & (k & Hk & HT & HgeT & Hbelow) & Hs).
      exists T. split; [| exact Hs].
      exists (k + 1). repeat split; try lia.
      intros j Hj. destruct (Z.eq_dec j 0) as [-> | Hj0]; [lia |].
      specialize (Hbelow (j - 1)). nia.
    + rewrite add_num_terminal in Hrun by lia.
      exists start. split; [| congruence].
      exists 0. repeat split; lia.
Qed.

(** With a non-negative increment the sequence never decreases, so its
    first member [>= 4000] is also the smallest one. *)
Lemma first_reaching_smallest start add T :
  0 <= add -> first_reaching start add T -> smallest_reaching start add T.
Proof.
  intros Hadd (k & Hk & -> & Hge & Hbelow).
  repeat split; [exists k; lia | lia |].
  intros k' Hk' Hge'.
  destruct (Z_lt_ge_dec k' k) as [Hlt | Hle]; [specialize (Hbelow k'); lia | nia].
Qed.

(** ** Runs with a non-positive increment *)

(** Below the threshold a non-positive increment keeps every later
    activation below the threshold. *)
Lemma add_num_stuck add :
  add <= 0 ->
  forall depth start, start < 4000 -> add_num depth start add = None.
Proof.
  intros Hadd. induction depth as [| d IH]; intros start Hlt.
  - reflexivity.
  - rewrite add_num_recursive by assumption. apply IH. lia.
Qed.

(** ** The state machine and the recursion agree *)

Lemma done_is_final add s p : steps add (Done s) p -> p = Done s.
Proof.
  intros Hsteps. inversion Hsteps as [| ? q ? Hstep _]; subst.
  - reflexivity.
  - inversion Hstep.
Qed.

Lemma steps_of_run add depth :
  forall start s,
  add_num depth start add = Some s ->
  steps add (Accumulating start) (Done s).
Proof.
  induction depth as [| d IH]; intros start s Hrun.
  - discriminate Hrun.
  - destruct (Z_lt_ge_dec start 4000) as [Hlt | Hge].
    + rewrite add_num_recursive in Hrun by assumption.
      eapply steps_cons; [apply step_recurse; assumption | apply IH, Hrun].
    + rewrite add_num_terminal in Hrun by lia.
      injection Hrun as Hs. subst s.
      eapply steps_cons; [apply step_return; lia | apply steps_refl].
Qed.

Lemma run_of_steps add p q :
  steps add p q ->
  forall start s, p = Accumulating start -> q = Done s ->
  exists depth, add_num depth start add = Some s.
Proof.
  induction 1 as [p | p q r Hstep Hsteps IH]; intros start s Hp Hq.
  - congruence.
  - subst p r. inversion Hstep as [st Hlt | st Hge]; subst.
    + destruct (IH _ _ eq_refl eq_refl) as [d Hd].
      exists (S d). rewrite add_num_recursive by assumption. exact Hd.
    + apply done_is_final in Hsteps. injection Hsteps as Hs. subst s.
      exists 1%nat. apply add_num_terminal. assumption.
Qed.

(** While the increment is non-positive, a machine started below the
    threshold stays in [Accumulating] below the threshold. *)
Lemma steps_stuck add p q :
  add <= 0 ->
  steps add p q ->
  (exists start, p = Accumulating start /\ start < 4000) ->
  exists start', q = Accumulating start' /\ start' < 4000.
Proof.
  intros Hadd. induction 1 as [p | p q r Hstep Hsteps IH]; intros Hp.
  - exact Hp.
  - apply IH. destruct Hp as (start & -> & Hlt).
    inversion Hstep; subst; [| lia].
    eexists; split; [reflexivity | lia].
Qed.

(** ** The decorated function *)

(** The decorator only appends to the trace: the value returned is that of
    the undecorated function and [stdout] is not touched. *)
Lemma add_num_observed_spec depth :
  forall w start add,
  add_num_observed depth w start add =
    (World (telemetry w ++ span_events depth start add) (stdout w),
     add_num depth start add).
Proof.
  induction depth as [| d IH]; intros [tr out] start add.
  - cbn. rewrite app_nil_r. reflexivity.
  - cbn [add_num_observed add_num span_events].
    destruct (start >=? 4000).
    + unfold emit. cbn. rewrite <- app_assoc. reflexivity.
    + rewrite IH. unfold emit. cbn.
      rewrite <- !app_assoc. reflexivity.
Qed.

Lemma span_starts_app tr tr' :
  span_starts (tr ++ tr') = span_starts tr ++ span_starts tr'.
Proof.
  induction tr as [| [start add | output | |] tr IH]; cbn;
    rewrite ?IH; reflexivity.
Qed.

Lemma span_starts_events depth :
  forall start add,
  span_starts (span_events depth start add) = start_chain depth start add.
Proof.
  induction depth as [| d IH]; intros start add.
  - reflexivity.
  - cbn [span_events start_chain span_starts].
    destruct (start >=? 4000).
    + reflexivity.
    + rewrite span_starts_app, IH. cbn. rewrite app_nil_r. reflexivity.
Qed.

Lemma call_starts_chain depth start add :
  call_starts depth start add = start_chain depth start add.
Proof.
  unfold call_starts. rewrite add_num_observed_spec. cbn.
  apply span_starts_events.
Qed.

(** ** The sequence of start values *)

(** The activation number [i] receives [start + i*add], and every
    activation that has a successor was below the threshold. *)
Lemma start_chain_nth add depth :
  forall start i a,
  nth_error (start_chain depth start add) i = Some a ->
  a = start + Z.of_nat i * add /\
  (nth_error (start_chain depth start add) (S i) <> None -> a < 4000).
Proof.
  induction depth as [| d IH]; intros start i a Hnth.
  - destruct i; discriminate Hnth.
  - cbn [start_chain] in *. destruct i as [| i].
    + cbn in Hnth. injection Hnth as <-. split; [lia |].
      cbn. destruct (Z.geb_spec start 4000); [intros Hnext; now elim Hnext | lia].
    + cbn [nth_error] in *.
      destruct (start >=? 4000); [destruct i; discriminate Hnth |].
      destruct (IH _ _ _ Hnth) as [-> Hlt]. split; [lia | exact Hlt].
Qed.

(** ** Runs with a positive increment *)

Section PositiveIncrement.

Variable add : Z.
Hypothesis add_pos : 0 < add.

(** One recursive step does not move the landing value. *)
Lemma landing_step start :
  start < 4000 -> landing (start + add) add = landing start add.
Proof.
  intros Hlt. rewrite (landing_below start) by assumption.
  destruct (Z_lt_ge_dec (start + add) 4000) as [Hlt' | Hge'].
  - rewrite landing_below by assumption.
    replace (start + add - 4000) with (start - 4000 + 1 * add) by lia.
    rewrite Z.mod_add by lia. reflexivity.
  - rewrite landing_terminal by lia.
    replace (start - 4000) with (start + add - 4000 + (-1) * add) by lia.
    rewrite Z.mod_add by lia.
    rewrite Z.mod_small by lia. lia.
Qed.

(** A budget of [4000 - start] activations and one more is enough, and the
    result is read off the landing value. *)
Lemma add_num_landing n :
  forall start, 4000 - start <= Z.of_nat n ->
  add_num (S n) start add = Some (fstring_sum (landing start add + add)).
Proof.
  induction n as [| n IH]; intros start Hn.
  - rewrite add_num_terminal by lia. rewrite landing_terminal by lia.
    reflexivity.
  - destruct (Z_lt_ge_dec start 4000) as [Hlt | Hge].
    + rewrite add_num_recursive by assumption.
      rewrite IH by lia. rewrite landing_step by assumption. reflexivity.
    + rewrite add_num_terminal by lia. rewrite landing_terminal by lia.
      reflexivity.
Qed.

Lemma returns_landing start :
  returns start add (fstring_sum (landing start add + add)).
Proof.
  apply (returns_of_run (S (Z.to_nat (4000 - start)))).
  apply add_num_landing. lia.
Qed.

(** The landing value is the first member of the sequence that is
    [>= 4000]. *)
Lemma landing_first_reaching start :
  first_reaching start add (landing start add).
Proof.
  destruct (returns_landing start) as [d Hd].
  specialize (Hd d (Nat.le_refl _)).
  destruct (add_num_first_reaching _ _ _ _ Hd) as (T & HT & Hs).
  apply fstring_sum_inj in Hs.
  replace (landing start add) with T by lia. exact HT.
Qed.

Lemma start_chain_lower_bound depth :
  forall start, Forall (fun x => start <= x) (start_chain depth start add).
Proof.
  induction depth as [| d IH]; intros start.
  - constructor.
  - cbn [start_chain]. constructor; [lia |].
    destruct (start >=? 4000); [constructor |].
    eapply Forall_impl; [| apply IH]. cbn. intros x Hx. lia.
Qed.

Lemma start_chain_sorted depth :
  forall start, StronglySorted Z.lt (start_chain depth start add).
Proof.
  induction depth as [| d IH]; intros start.
  - constructor.
  - cbn [start_chain]. constructor.
    + destruct (start >=? 4000); [constructor | apply IH].
    + destruct (start >=? 4000); [constructor |].
      eapply Forall_impl; [| apply start_chain_lower_bound].
      cbn. intros x Hx. lia.
Qed.

End PositiveIncrement.

(** ** The loop and the recursion *)

Lemma add_num_iterative_agrees fuel :
  forall start add,
  add_num_iterative fuel start add = add_num fuel start add.
Proof.
  unfold add_num_iterative.
  induction fuel as [| f IH]; intros start add.
  - reflexivity.
  - cbn [while add_num].
    destruct (Z.ltb_spec start 4000), (Z.geb_spec start 4000); try lia.
    + apply IH.
    + reflexivity.
Qed.

(** ** The script *)

Lemma span_events_unfold depth start add :
  span_events (S depth) start add =
    SpanStart start add ::
    (if start >=? 4000
     then [SpanEnd (Some (fstring_sum (start + add)))]
     else span_events depth (start + add) add
            ++ [SpanEnd (add_num depth (start + add) add)]).
Proof. reflexivity. Qed.

(** A span is well bracketed: at whatever nesting level it starts, it
    contributes a top-level call only when that level is 0, and leaves the
    level as it found it. *)
Lemma top_level_calls_span depth :
  forall nesting start add rest,
  top_level_calls nesting (span_events (S depth) start add ++ rest) =
    match nesting with O => [(start, add)] | S _ => [] end
      ++ top_level_calls nesting rest.
Proof.
  induction depth as [| d IH]; intros nesting start add rest;
    rewrite span_events_unfold.
  - destruct (start >=? 4000); reflexivity.
  - destruct (start >=? 4000); [reflexivity |].
    cbn [app top_level_calls]. rewrite <- app_assoc.
    f_equal. rewrite IH. reflexivity.
Qed.

(** The entry call needs 3999 nested activations, no fewer. *)
Lemma entry_call_depth :
  add_num 3998 2 1 = None /\ add_num 3999 2 1 = Some "The sum is 4001".
Proof. split; vm_compute; reflexivity. Qed.

Lemma entry_call_budget budget :
  (3999 <= budget)%nat -> add_num budget 2 1 = Some "The sum is 4001".
Proof.
  intros Hle. eapply add_num_mono; [exact Hle | apply entry_call_depth].
Qed.

Lemma main_spec budget w :
  (3999 <= budget)%nat ->
  main budget w =
    (World (telemetry w ++ span_events budget 2 1 ++ [GetClient; Flush])
           (stdout w), 0).
Proof.
  intros Hle. unfold main. rewrite add_num_observed_spec.
  rewrite entry_call_budget by assumption.
  unfold emit. cbn [telemetry stdout].
  rewrite <- !app_assoc. reflexivity.
Qed.

(** All 3999 activations of the entry call are observed, the start values
    running from 2 to 4000. *)
Lemma entry_call_activations :
  length (call_starts recursionlimit 2 1) = 3999%nat /\
  nth_error (call_starts recursionlimit 2 1) 3998 = Some 4000.
Proof. rewrite call_starts_chain. split; vm_compute; reflexivity. Qed.

Lemma recursionlimit_enough : (3999 <= recursionlimit)%nat.
Proof. unfold recursionlimit. lia. Qed.

Lemma main_trace budget :
  (3999 <= budget)%nat ->
  exists inner,
    span_events budget 2 1 =
      SpanStart 2 1 :: inner ++ [SpanEnd (Some "The sum is 4001")].
Proof.
  intros Hle. destruct budget as [| d]; [lia |].
  pose proof (entry_call_budget (S d) Hle) as Hrun.
  rewrite add_num_recursive in Hrun by lia.
  rewrite span_events_unfold. change (2 >=? 4000) with false. cbv iota.
  rewrite Hrun. eexists. reflexivity.
Qed.

(** * Properties of the accumulator and of the script *)

(** C1.  For all integers [start < 4000] and [add > 0], the call
    [add_num(start, add)] terminates and returns ["The sum is {T + add}"],
    where [T] is the first value [>= 4000] of the sequence
    [start, start+add, start+2*add, ...].  A budget of [4000 - start + 1]
    nested activations is always enough. *)
Theorem add_num_below_threshold start add :
  start < 4000 -> 0 < add ->
  exists T,
    first_reaching start add T /\
    returns start add (fstring_sum (T + add)) /\
    add_num (S (Z.to_nat (4000 - start))) start add
      = Some (fstring_sum (T + add)).
Proof.
  intros _ Hadd. exists (landing start add). split; [| split].
  - apply landing_first_reaching. assumption.
  - apply returns_landing. assumption.
  - apply add_num_landing; [assumption | lia].
Qed.

Lemma add_num_below_threshold_witness :
  2 < 4000 /\ 0 < 1 /\
  exists T,
    first_reaching 2 1 T /\
    returns 2 1 (fstring_sum (T + 1)) /\
    add_num (S (Z.to_nat (4000 - 2))) 2 1 = Some (fstring_sum (T + 1)).
Proof.
  split; [lia | split; [lia | apply (add_num_below_threshold 2 1); lia]].
Defined.

(** C2.  For every integer [start >= 4000] and every integer [add], of any
    sign, [add_num(start, add)] returns exactly ["The sum is {start + add}"]
    without a recursive step: a budget of one activation is enough, the one
    activation is the only one observed, and the machine goes from
    [Accumulating start] to [Done] in one step. *)
Theorem add_num_at_threshold start add :
  4000 <= start ->
  add_num 1 start add = Some (fstring_sum (start + add)) /\
  returns start add (fstring_sum (start + add)) /\
  (forall depth, call_starts (S depth) start add = [start]) /\
  step add (Accumulating start) (Done (fstring_sum (start + add))).
Proof.
  intros Hge. repeat split.
  - apply add_num_terminal. assumption.
  - apply (returns_of_run 1). apply add_num_terminal. assumption.
  - intros depth. rewrite call_starts_chain. cbn [start_chain].
    destruct (Z.geb_spec start 4000); [reflexivity | lia].
  - apply step_return. assumption.
Qed.

Lemma add_num_at_threshold_witness :
  4000 <= 4000 /\
  add_num 1 4000 5 = Some (fstring_sum (4000 + 5)) /\
  returns 4000 5 (fstring_sum (4000 + 5)) /\
  (forall depth, call_starts (S depth) 4000 5 = [4000]) /\
  step 5 (Accumulating 4000) (Done (fstring_sum (4000 + 5))).
Proof.
  split; [lia | apply (add_num_at_threshold 4000 5); lia].
Defined.

(** C3, as the spec states it, fails.  At [add_num(5000, -3)] the call
    returns ["The sum is 4997"], while the smallest value of the form
    [5000 + k*(-3)], [k >= 0], that is [>= 4000] is 4001 (at [k = 333]). *)
Lemma smallest_value_contract_fails :
  add_num 1 5000 (-3) = Some "The sum is 4997" /\
  smallest_reaching 5000 (-3) 4001 /\
  "The sum is 4997" <> fstring_sum 4001.
Proof.
  split; [reflexivity | split].
  - repeat split; [exists 333; lia | lia | intros k Hk Hge; lia].
  - cbv. discriminate.
Qed.

(** C3, amended.  Whenever [add_num(start, add)] returns, the string is
    ["The sum is {T + add}"], where [T] is the first value [>= 4000] of the
    sequence [start, start+add, ...]; when [add >= 0] this [T] is also the
    smallest value of the form [start + k*add], [k >= 0], that is
    [>= 4000]. *)
Theorem add_num_reports_first_plus_add depth start add s :
  add_num depth start add = Some s ->
  exists T,
    first_reaching start add T /\
    s = fstring_sum (T + add) /\
    (0 <= add -> smallest_reaching start add T).
Proof.
  intros Hrun.
  destruct (add_num_first_reaching _ _ _ _ Hrun) as (T & HT & Hs).
  exists T. split; [exact HT | split; [exact Hs |]].
  intros Hadd. apply first_reaching_smallest; assumption.
Qed.

Lemma add_num_reports_first_plus_add_witness :
  add_num 2 3999 1 = Some "The sum is 4001" /\
  exists T,
    first_reaching 3999 1 T /\
    "The sum is 4001" = fstring_sum (T + 1) /\
    (0 <= 1 -> smallest_reaching 3999 1 T).
Proof.
  split; [reflexivity |].
  apply (add_num_reports_first_plus_add 2 3999 1). reflexivity.
Defined.

(** C4.  For every integer [start < 4000] and every integer [add <= 0],
    [add_num(start, add)] never returns: no budget of activations gives a
    result, and the machine never reaches [Done]. *)
Theorem add_num_unbounded start add :
  start < 4000 -> add <= 0 ->
  diverges start add /\
  forall s, ~ steps add (Accumulating start) (Done s).
Proof.
  intros Hlt Hadd. split.
  - intros depth. apply add_num_stuck; assumption.
  - intros s Hsteps.
    destruct (steps_stuck _ _ _ Hadd Hsteps) as (start' & Hdone & _).
    + exists start. split; [reflexivity | assumption].
    + discriminate Hdone.
Qed.

Lemma add_num_unbounded_witness :
  10 < 4000 /\ 0 <= 0 /\
  diverges 10 0 /\ forall s, ~ steps 0 (Accumulating 10) (Done s).
Proof.
  split; [lia | split; [lia | apply (add_num_unbounded 10 0); lia]].
Defined.

(** C5.  For every integer [start] and every [add > 0], the recursive
    function and the loop [total := start; while total < 4000 do
    total := total + add; return "The sum is {total + add}"] agree: both
    return, and they return the same string.  They agree budget by budget
    as well. *)
Theorem iterative_agrees_with_recursive start add :
  0 < add ->
  (exists s, returns start add s /\ returns_iterative start add s) /\
  (forall fuel, add_num_iterative fuel start add = add_num fuel start add).
Proof.
  intros Hadd. split.
  - exists (fstring_sum (landing start add + add)).
    destruct (returns_landing add Hadd start) as [d Hd].
    split; exists d; intros d' Hle.
    + apply Hd, Hle.
    + rewrite add_num_iterative_agrees. apply Hd, Hle.
  - intros fuel. apply add_num_iterative_agrees.
Qed.

Lemma iterative_agrees_with_recursive_witness :
  0 < 7 /\
  (exists s, returns 3 7 s /\ returns_iterative 3 7 s) /\
  (forall fuel, add_num_iterative fuel 3 7 = add_num fuel 3 7).
Proof.
  split; [lia | apply (iterative_agrees_with_recursive 3 7); lia].
Defined.

(** C6.  Run with the recursion limit of line 5, the script makes exactly
    one call of its own, [add_num(2, 1)], which returns
    ["The sum is 4001"]; nothing is written to standard output; the client
    is then fetched and flushed, and the exit status is 0. *)
Theorem main_run :
  add_num recursionlimit 2 1 = Some "The sum is 4001" /\
  top_level_calls 0 (telemetry (fst (main recursionlimit boot))) = [(2, 1)] /\
  (exists inner,
     telemetry (fst (main recursionlimit boot)) =
       SpanStart 2 1 :: inner
         ++ [SpanEnd (Some "The sum is 4001"); GetClient; Flush]) /\
  stdout (fst (main recursionlimit boot)) = [] /\
  snd (main recursionlimit boot) = 0.
Proof.
  pose proof recursionlimit_enough as Hle.
  rewrite (main_spec _ boot Hle). cbn [fst snd telemetry stdout boot app].
  split; [apply entry_call_budget, Hle |].
  split; [| split; [| split; reflexivity]].
  - destruct recursionlimit as [| d]; [lia |].
    rewrite top_level_calls_span. reflexivity.
  - destruct (main_trace _ Hle) as [inner ->].
    exists inner. cbn [app]. rewrite <- app_assoc. reflexivity.
Qed.

(** C8.  [add_num] is deterministic: two calls with the same [start] and
    [add] that both return give the same string, whatever the telemetry
    already recorded and whatever budget each call was given; the string
    is the one the undecorated function computes. *)
Theorem add_num_deterministic start add d1 d2 w1 w2 s1 s2 :
  snd (add_num_observed d1 w1 start add) = Some s1 ->
  snd (add_num_observed d2 w2 start add) = Some s2 ->
  s1 = s2 /\ returns start add s1.
Proof.
  rewrite !add_num_observed_spec. cbn [snd]. intros H1 H2. split.
  - eapply add_num_functional; eassumption.
  - eapply returns_of_run, H1.
Qed.

Lemma add_num_deterministic_witness :
  snd (add_num_observed 3 boot 3998 1) = Some "The sum is 4001" /\
  snd (add_num_observed 9 (emit boot Flush) 3998 1)
    = Some "The sum is 4001" /\
  "The sum is 4001" = "The sum is 4001" /\
  returns 3998 1 "The sum is 4001".
Proof.
  split; [reflexivity | split; [reflexivity |]].
  apply (add_num_deterministic 3998 1 3 9 boot (emit boot Flush));
    reflexivity.
Defined.

(** C9.  With [add > 0] the running total grows by exactly [add] at every
    non-terminal step: a transition from [Accumulating start] to
    [Accumulating start'] has [start' = start + add > start], consecutive
    activations of a run receive [a] and [a + add], and the sequence of
    start values of a run is strictly increasing. *)
Theorem running_total_increases add :
  0 < add ->
  (forall start start',
     step add (Accumulating start) (Accumulating start') ->
     start' = start + add /\ start < start') /\
  (forall depth start i a b,
     nth_error (call_starts depth start add) i = Some a ->
     nth_error (call_starts depth start add) (S i) = Some b ->
     b = a + add /\ a < b /\ a < 4000) /\
  (forall depth start, StronglySorted Z.lt (call_starts depth start add)).
Proof.
  intros Hadd. split; [| split].
  - intros start start' Hstep. inversion Hstep; subst. lia.
  - intros depth start i a b Ha Hb. rewrite call_starts_chain in *.
    destruct (start_chain_nth _ _ _ _ _ Ha) as [-> Hlt].
    destruct (start_chain_nth _ _ _ _ _ Hb) as [-> _].
    split; [lia | split; [lia |]].
    apply Hlt. congruence.
  - intros depth start. rewrite call_starts_chain.
    apply start_chain_sorted. assumption.
Qed.

Lemma running_total_increases_witness :
  0 < 4 /\
  (forall start start',
     step 4 (Accumulating start) (Accumulating start') ->
     start' = start + 4 /\ start < start') /\
  (forall depth start i a b,
     nth_error (call_starts depth start 4) i = Some a ->
     nth_error (call_starts depth start 4) (S i) = Some b ->
     b = a + 4 /\ a < b /\ a < 4000) /\
  (forall depth start, StronglySorted Z.lt (call_starts depth start 4)).
Proof.
  split; [lia | apply (running_total_increases 4); lia].
Defined.

(** C7.  [add_num(5000, -3)] returns ["The sum is 4997"] from the terminal
    branch at once: one activation is enough and it is the only one, the
    negative increment notwithstanding. *)
Theorem add_num_5000_minus_3 :
  add_num 1 5000 (-3) = Some "The sum is 4997" /\
  returns 5000 (-3) "The sum is 4997" /\
  (forall depth, call_starts (S depth) 5000 (-3) = [5000]) /\
  step (-3) (Accumulating 5000) (Done "The sum is 4997").
Proof.
  split; [reflexivity | split; [| split]].
  - apply (returns_of_run 1). reflexivity.
  - intros depth. rewrite call_starts_chain. reflexivity.
  - apply (step_return (-3) 5000). lia.
Qed.

(** C10.  For every [add > 0] and all [s1 < 4000], [s2 < 4000] with
    [s1] congruent to [s2] modulo [add], the calls [add_num(s1, add)] and
    [add_num(s2, add)] both return, and return the same string. *)
Theorem add_num_residue_class add s1 s2 :
  0 < add -> s1 < 4000 -> s2 < 4000 ->
  s1 mod add = s2 mod add ->
  exists s, returns s1 add s /\ returns s2 add s.
Proof.
  intros Hadd H1 H2 Hmod.
  exists (fstring_sum (landing s1 add + add)). split.
  - apply returns_landing. assumption.
  - rewrite (landing_residue add s1 s2) by assumption.
    apply returns_landing. assumption.
Qed.

Lemma add_num_residue_class_witness :
  0 < 7 /\ 3 < 4000 /\ -4 < 4000 /\ 3 mod 7 = (-4) mod 7 /\
  exists s, returns 3 7 s /\ returns (-4) 7 s.
Proof.
  split; [lia | split; [lia | split; [lia | split; [reflexivity |]]]].
  apply (add_num_residue_class 7 3 (-4)); [lia | lia | lia | reflexivity].
Defined.

(** * Further properties *)

(** ** How deep a call goes *)

Lemma calls_needed_terminal start add :
  4000 <= start -> calls_needed start add = 1.
Proof.
  intros Hge. unfold calls_needed.
  destruct (Z.geb_spec start 4000); [reflexivity | lia].
Qed.

Lemma calls_needed_step start add :
  0 < add -> start < 4000 ->
  calls_needed start add = calls_needed (start + add) add + 1.
Proof.
  intros Hadd Hlt. unfold calls_needed.
  destruct (Z.geb_spec start 4000) as [Hge | _]; [lia |].
  destruct (Z.geb_spec (start + add) 4000) as [Hge' | Hlt'].
  - replace (4000 - start + add - 1) with (4000 - start - 1 + 1 * add) by lia.
    rewrite Z.div_add by lia. rewrite Z.div_small by lia. reflexivity.
  - replace (4000 - start + add - 1)
      with (4000 - (start + add) + add - 1 + 1 * add) by lia.
    rewrite Z.div_add by lia. reflexivity.
Qed.

Lemma calls_needed_pos start add : 0 < add -> 1 <= calls_needed start add.
Proof.
  intros Hadd. unfold calls_needed.
  destruct (Z.geb_spec start 4000) as [Hge | Hlt]; [lia |].
  assert (1 <= (4000 - start + add - 1) / add); [| lia].
  apply Z.div_le_lower_bound; lia.
Qed.

Lemma add_num_exact_pos add :
  0 < add ->
  forall depth start,
  add_num depth start add =
    if Z.of_nat depth <? calls_needed start add then None
    else Some (fstring_sum (landing start add + add)).
Proof.
  intros Hadd. induction depth as [| d IH]; intros start.
  - pose proof (calls_needed_pos start add Hadd).
    destruct (Z.ltb_spec (Z.of_nat 0) (calls_needed start add)); [reflexivity | lia].
  - destruct (Z_lt_ge_dec start 4000) as [Hlt | Hge].
    + rewrite add_num_recursive by assumption. rewrite IH.
      rewrite landing_step by assumption.
      rewrite (calls_needed_step start add) by assumption.
      destruct (Z.ltb_spec (Z.of_nat d) (calls_needed (start + add) add)),
        (Z.ltb_spec (Z.of_nat (S d)) (calls_needed (start + add) add + 1));
        try reflexivity; lia.
    + rewrite add_num_terminal by lia.
      rewrite landing_terminal, calls_needed_terminal by lia.
      destruct (Z.ltb_spec (Z.of_nat (S d)) 1); [lia | reflexivity].
Qed.

(** X1.  Whenever [add > 0] or [start >= 4000], the outcome of
    [add_num(start, add)] under a budget of [depth] nested activations is
    known in closed form: the budget is exceeded exactly when [depth] is
    below [calls_needed start add], and otherwise the call returns
    ["The sum is {landing + add}"], the same string for every sufficient
    budget. *)
Theorem add_num_exact depth start add :
  0 < add \/ 4000 <= start ->
  add_num depth start add =
    if Z.of_nat depth <? calls_needed start add then None
    else Some (fstring_sum (landing start add + add)).
Proof.
  intros [Hadd | Hge]; [apply add_num_exact_pos; assumption |].
  rewrite calls_needed_terminal, landing_terminal by assumption.
  destruct depth as [| d].
  - reflexivity.
  - rewrite add_num_terminal by assumption.
    destruct (Z.ltb_spec (Z.of_nat (S d)) 1); [lia | reflexivity].
Qed.

Lemma add_num_exact_witness :
  (0 < 3 \/ 4000 <= 3990) /\
  add_num 4 3990 3 =
    if Z.of_nat 4 <? calls_needed 3990 3 then None
    else Some (fstring_sum (landing 3990 3 + 3)).
Proof.
  split; [left; lia | apply (add_num_exact 4 3990 3); left; lia].
Defined.

(** ** How far the reported total overshoots *)

(** X2.  A call that returns reports a total of at least [4000 + add];
    when it started below 4000 the increment was positive and the total is
    below [4000 + 2*add]; when it started at or above 4000 the total is
    [start + add]. *)
Theorem add_num_total_bounds depth start add s :
  add_num depth start add = Some s ->
  exists total,
    s = fstring_sum total /\
    4000 + add <= total /\
    (start < 4000 -> 0 < add /\ total < 4000 + 2 * add) /\
    (4000 <= start -> total = start + add).
Proof.
  intros Hrun.
  destruct (add_num_first_reaching _ _ _ _ Hrun)
    as (T & (k & Hk & -> & Hge & Hbelow) & ->).
  eexists. split; [reflexivity |]. split; [lia |]. split.
  - intros Hlt.
    assert (Hadd : 0 < add).
    { destruct (Z_lt_ge_dec 0 add) as [Hpos | Hnp]; [assumption |].
      rewrite add_num_stuck in Hrun by lia. discriminate Hrun. }
    split; [assumption |].
    assert (Hk1 : k = 0 \/ 0 <= k - 1 < k) by lia.
    destruct Hk1 as [-> | Hk1]; [lia |].
    specialize (Hbelow (k - 1) Hk1). nia.
  - intros Hge'.
    destruct (Z.eq_dec k 0) as [-> | Hk0]; [lia |].
    specialize (Hbelow 0). lia.
Qed.

Lemma add_num_total_bounds_witness :
  add_num 3 3995 4 = Some "The sum is 4007" /\
  exists total,
    "The sum is 4007" = fstring_sum total /\
    4000 + 4 <= total /\
    (3995 < 4000 -> 0 < 4 /\ total < 4000 + 2 * 4) /\
    (4000 <= 3995 -> total = 3995 + 4).
Proof.
  split; [reflexivity |].
  apply (add_num_total_bounds 3 3995 4). reflexivity.
Defined.

(** ** Which start values share a result *)

Lemma mod_shift_4000 add a b :
  (a - 4000) mod add = (b - 4000) mod add -> a mod add = b mod add.
Proof.
  intros Hmod.
  assert (Hshift : forall c,
            c mod add = ((c - 4000) mod add + 4000 mod add) mod add).
  { intros c. rewrite <- Zplus_mod. f_equal. lia. }
  rewrite (Hshift a), (Hshift b), Hmod. reflexivity.
Qed.

Lemma add_num_pos_of_run depth start add s :
  start < 4000 -> add_num depth start add = Some s -> 0 < add.
Proof.
  intros Hlt Hrun. destruct (Z_lt_ge_dec 0 add) as [Hpos | Hnp]; [assumption |].
  rewrite add_num_stuck in Hrun by lia. discriminate Hrun.
Qed.

Lemma add_num_run_landing depth start add s :
  0 < add -> add_num depth start add = Some s ->
  s = fstring_sum (landing start add + add).
Proof.
  intros Hadd Hrun. rewrite add_num_exact_pos in Hrun by assumption.
  destruct (Z.of_nat depth <? calls_needed start add); congruence.
Qed.

(** X3.  Two returning calls with the same increment, both started below
    4000, give the same string exactly when the two start values are
    congruent modulo the increment: the text of the result tells the
    residue classes apart. *)
Theorem add_num_same_result_iff d1 d2 add s1 s2 r1 r2 :
  s1 < 4000 -> s2 < 4000 ->
  add_num d1 s1 add = Some r1 ->
  add_num d2 s2 add = Some r2 ->
  (r1 = r2 <-> s1 mod add = s2 mod add).
Proof.
  intros H1 H2 Hr1 Hr2.
  pose proof (add_num_pos_of_run _ _ _ _ H1 Hr1) as Hadd.
  apply add_num_run_landing in Hr1; [| assumption].
  apply add_num_run_landing in Hr2; [| assumption].
  subst r1 r2. split.
  - intros Heq. apply fstring_sum_inj in Heq.
    rewrite !landing_below in Heq by assumption.
    apply mod_shift_4000. lia.
  - intros Hmod. rewrite (landing_residue add s1 s2) by assumption.
    reflexivity.
Qed.

Lemma add_num_same_result_iff_witness :
  3990 < 4000 /\ 3993 < 4000 /\
  add_num 5 3990 4 = Some "The sum is 4006" /\
  add_num 3 3993 4 = Some "The sum is 4005" /\
  ("The sum is 4006" = "The sum is 4005" <-> 3990 mod 4 = 3993 mod 4).
Proof.
  split; [lia | split; [lia | split; [reflexivity | split; [reflexivity |]]]].
  apply (add_num_same_result_iff 5 3 4 3990 3993); [lia | lia | |];
    reflexivity.
Defined.

(** ** The shape of the telemetry of a returning call *)

Lemma map_seq_shift {A : Type} (f : nat -> A) n :
  map f (seq 1 n) = map (fun i => f (S i)) (seq 0 n).
Proof. rewrite <- seq_shift, map_map. reflexivity. Qed.

Lemma nested_spans_unfold n start add s :
  nested_spans (S n) start add s =
    SpanStart start add ::
    nested_spans n (start + add) add s ++ [SpanEnd (Some s)].
Proof.
  unfold nested_spans. cbn [seq map app].
  rewrite map_seq_shift. rewrite <- app_assoc, <- repeat_cons.
  cbn [repeat]. f_equal; [f_equal; lia |]. f_equal.
  apply map_ext. intros i. f_equal. lia.
Qed.

Lemma span_events_nested depth :
  forall start add s,
  add_num depth start add = Some s ->
  exists n,
    (1 <= n <= depth)%nat /\
    Z.of_nat n = calls_needed start add /\
    span_events depth start add = nested_spans n start add s.
Proof.
  induction depth as [| d IH]; intros start add s Hrun.
  - discriminate Hrun.
  - rewrite span_events_unfold.
    destruct (Z.geb_spec start 4000) as [Hge | Hlt].
    + rewrite add_num_terminal in Hrun by assumption.
      injection Hrun as Hs. subst s.
      exists 1%nat. split; [lia |].
      rewrite calls_needed_terminal by assumption. split; [reflexivity |].
      cbn. do 2 f_equal. lia.
    + pose proof (add_num_pos_of_run _ _ _ _ Hlt Hrun) as Hadd.
      rewrite add_num_recursive in Hrun by assumption.
      destruct (IH _ _ _ Hrun) as (n & Hn & Hneed & ->).
      exists (S n). split; [lia |].
      rewrite (calls_needed_step start add) by assumption.
      split; [lia |].
      rewrite nested_spans_unfold, Hrun. reflexivity.
Qed.

(** X4.  A decorated call that returns [s] appends to the telemetry
    exactly [n] span starts, with inputs [start], [start + add], ...,
    followed by [n] span ends that all carry [s], where [n] is
    [calls_needed start add] and is within the budget; it leaves what was
    already recorded, and standard output, as they were. *)
Theorem observed_call_shape depth w start add s :
  snd (add_num_observed depth w start add) = Some s ->
  exists n,
    (1 <= n <= depth)%nat /\
    Z.of_nat n = calls_needed start add /\
    fst (add_num_observed depth w start add) =
      World (telemetry w ++ nested_spans n start add s) (stdout w).
Proof.
  rewrite add_num_observed_spec. cbn [fst snd]. intros Hrun.
  destruct (span_events_nested _ _ _ _ Hrun) as (n & Hn & Hneed & ->).
  exists n. split; [exact Hn | split; [exact Hneed | reflexivity]].
Qed.

Lemma observed_call_shape_witness :
  snd (add_num_observed 6 boot 3994 3) = Some "The sum is 4003" /\
  exists n,
    (1 <= n <= 6)%nat /\
    Z.of_nat n = calls_needed 3994 3 /\
    fst (add_num_observed 6 boot 3994 3) =
      World (telemetry boot ++ nested_spans n 3994 3 "The sum is 4003")
            (stdout boot).
Proof.
  split; [reflexivity |].
  apply (observed_call_shape 6 boot 3994 3). reflexivity.
Defined.

(** ** The script under any budget *)

Lemma span_events_spans_only depth :
  forall start add,
  ~ In GetClient (span_events depth start add) /\
  ~ In Flush (span_events depth start add).
Proof.
  induction depth as [| d IH]; intros start add.
  - split; intros [].
  - rewrite span_events_unfold. destruct (start >=? 4000).
    + split; intros [Hin | [Hin | []]]; discriminate Hin.
    + destruct (IH (start + add) add) as [Hget Hflush].
      split; intros [Hin | Hin]; try discriminate Hin;
        apply in_app_or in Hin; destruct Hin as [Hin | [Hin | []]];
        try discriminate Hin; auto.
Qed.

Lemma entry_call_short budget :
  (budget < 3999)%nat -> add_num budget 2 1 = None.
Proof.
  intros Hlt. destruct (add_num budget 2 1) as [s |] eqn:Hrun; [| reflexivity].
  apply (add_num_mono budget 3998) in Hrun; [| lia].
  destruct entry_call_depth as [Hnone _]. congruence.
Qed.

(** X5.  Whatever the budget and whatever was recorded before, the script
    keeps the earlier telemetry and never writes to standard output.  It
    ends with status 0 exactly when the budget allows 3999 nested
    activations, and then fetches and flushes the client once, after every
    span; with a smaller budget it ends with status 1 and the client is
    neither fetched nor flushed. *)
Theorem main_outcome budget w :
  main budget w =
    (World (telemetry w ++ span_events budget 2 1
              ++ (if (3999 <=? budget)%nat then [GetClient; Flush] else []))
           (stdout w),
     if (3999 <=? budget)%nat then 0 else 1) /\
  ~ In GetClient (span_events budget 2 1) /\
  ~ In Flush (span_events budget 2 1).
Proof.
  split; [| apply span_events_spans_only].
  destruct (Nat.leb_spec 3999 budget) as [Hle | Hlt].
  - apply main_spec. assumption.
  - unfold main. rewrite add_num_observed_spec.
    rewrite entry_call_short by assumption.
    rewrite app_nil_r. reflexivity.
Qed.

(** ** Runs with a non-positive increment use the whole budget *)

Lemma start_chain_exhaust add :
  add <= 0 ->
  forall depth start, start < 4000 ->
  start_chain depth start add =
    map (fun i => start + Z.of_nat i * add) (seq 0 depth).
Proof.
  intros Hadd. induction depth as [| d IH]; intros start Hlt.
  - reflexivity.
  - cbn [start_chain seq map].
    destruct (Z.geb_spec start 4000) as [Hge | _]; [lia |].
    rewrite IH by lia. rewrite map_seq_shift.
    f_equal; [lia |]. apply map_ext. intros i. lia.
Qed.

(** X6.  Started below 4000 with [add <= 0], a call makes every activation
    its budget allows: under a budget of [depth] the observed start values
    are [start], [start + add], ..., [start + (depth - 1)*add], [depth] of
    them, all below 4000. *)
Theorem call_starts_exhaust_budget depth start add :
  start < 4000 -> add <= 0 ->
  call_starts depth start add =
    map (fun i => start + Z.of_nat i * add) (seq 0 depth) /\
  length (call_starts depth start add) = depth /\
  Forall (fun x => x < 4000) (call_starts depth start add).
Proof.
  intros Hlt Hadd. rewrite call_starts_chain.
  rewrite start_chain_exhaust by assumption.
  split; [reflexivity | split].
  - rewrite length_map, length_seq. reflexivity.
  - apply Forall_forall. intros x Hin.
    apply in_map_iff in Hin. destruct Hin as (i & <- & _). nia.
Qed.

Lemma call_starts_exhaust_budget_witness :
  10 < 4000 /\ -2 <= 0 /\
  call_starts 4 10 (-2) =
    map (fun i => 10 + Z.of_nat i * -2) (seq 0 4) /\
  length (call_starts 4 10 (-2)) = 4%nat /\
  Forall (fun x => x < 4000) (call_starts 4 10 (-2)).
Proof.
  split; [lia | split; [lia |]].
  apply (call_starts_exhaust_budget 4 10 (-2)); lia.
Defined.
